(** * check_lib_rs.py: interpreter resolution and delegation

    A shallow embedding of [codex-rs/mcp-types/check_lib_rs.py].  The script
    picks a Python interpreter of version 3.10 or newer (the running one, or
    the first candidate on the search path that passes a version probe), runs
    [generate_mcp_types.py --check] under it and exits with the child's
    status.

    The script talks to its environment only through [sys.version_info],
    [sys.executable], [__file__], [shutil.which] and [subprocess.run].  The
    environment of one invocation is a record of these ([World]); it is fixed
    for the invocation, so the same lookup or the same command line receives
    the same answer.  Every lookup and every spawn is logged, in program
    order, in the trace that a computation returns next to its result. *)

From Stdlib Require Import ZArith List String Ascii Bool Lia.
Import ListNotations.

Local Open Scope string_scope.
Local Open Scope list_scope.
Local Open Scope Z_scope.

(* ------------------------------------------------------------------ *)
(** ** The Python runtime the script relies on *)

(** Python orders tuples lexicographically; a proper prefix is smaller than
    the tuple it is a prefix of.  This is [a >= b] on tuples of integers. *)
Fixpoint tuple_ge (a b : list Z) : bool :=
  match a, b with
  | _, [] => true
  | [], _ :: _ => false
  | x :: a', y :: b' => if x =? y then tuple_ge a' b' else y <? x
  end.

(** [sys.version_info]: (major, minor, micro, releaselevel, serial). *)
Record VersionInfo := {
  major : Z;
  minor : Z;
  micro : Z;
  releaselevel : string;
  serial : Z
}.

(** The leading integer components of [sys.version_info].  A comparison with
    a tuple of two integers is settled within these (by the first two
    components, or by the lengths), so [releaselevel] and [serial] are never
    reached. *)
Definition version_tuple (v : VersionInfo) : list Z :=
  [major v; minor v; micro v].

(** The exceptions that can reach the top level of the script. *)
Inductive Exception :=
| RuntimeError (msg : string)
| OSError (strerror : string).

(** [pathlib] on absolute, resolved POSIX paths: a path is the list of its
    components below the root, outermost first. *)
Module Pathlib.

Definition Path := list string.

(** [p.parent]; the root is its own parent. *)
Definition parent (p : Path) : Path := removelast p.

(** [p / name] for a single relative component [name]. *)
Definition joinpath (p : Path) (name : string) : Path := p ++ [name].

(** [str(p)]. *)
Definition str (p : Path) : string := "/" ++ String.concat "/" p.

Definition is_absolute (s : string) : bool := String.prefix "/" s.

End Pathlib.

(** What the operating system does with one [subprocess.run(argv, cwd=...)]:
    the child runs to completion and leaves a return code, or it cannot be
    started at all. *)
Inductive Outcome :=
| Exited (code : Z)
| SpawnError (strerror : string).

Record CompletedProcess := {
  args : list string;
  returncode : Z
}.

(** The environment of one invocation. *)
Record World := {
  version_info : VersionInfo;               (* sys.version_info *)
  executable : string;                      (* sys.executable, as a string *)
  file_location : Pathlib.Path;             (* Path(__file__).resolve() *)
  which : string -> option string;          (* shutil.which on the search path *)
  spawn : list string -> option string -> Outcome;
  getcwd : string;                          (* the caller's current directory *)
  is_file : string -> bool                  (* which files exist *)
}.

(** Observable actions, in program order. *)
Inductive Event :=
| EWhich (name : string)
| ESpawn (argv : list string) (cwd : option string).

Definition Trace := list Event.

(** Computations: the events performed, and a value or the exception that
    ended the computation. *)
Definition M (A : Type) : Type := Trace * (Exception + A).

Definition ret {A} (a : A) : M A := ([], inr a).

Definition raise {A} (e : Exception) : M A := ([], inl e).

Definition bind {A B} (m : M A) (k : A -> M B) : M B :=
  match m with
  | (t, inl e) => (t, inl e)
  | (t, inr a) => let (t', r) := k a in (t ++ t', r)
  end.

Notation "x <- m ;; k" := (bind m (fun x => k))
  (at level 61, m at next level, right associativity).

Definition trace {A} (m : M A) : Trace := fst m.
Definition result {A} (m : M A) : Exception + A := snd m.

(** [shutil.which(name)]. *)
Definition shutil_which (w : World) (name : string) : M (option string) :=
  ([EWhich name], inr (which w name)).

(** [subprocess.run(argv, cwd=cwd, check=False)]: blocks until the child has
    finished; a child that cannot be started raises [OSError]; a nonzero
    return code raises nothing because of [check=False]. *)
Definition subprocess_run (w : World) (argv : list string) (cwd : option string)
  : M CompletedProcess :=
  ([ESpawn argv cwd],
   match spawn w argv cwd with
   | Exited code => inr {| args := argv; returncode := code |}
   | SpawnError msg => inl (OSError msg)
   end).

(* ------------------------------------------------------------------ *)
(** ** The script *)

Definition MIN_VERSION : list Z := [3; 10].

Definition version_ok (w : World) : bool :=
  tuple_ge (version_tuple (version_info w)) MIN_VERSION.

(** The tuple iterated over by the [for] loop of [python_for_generator]. *)
Definition CANDIDATES : list string :=
  ["python3.12"; "python3.11"; "python3.10"; "python3"].

Definition PROBE : string :=
  "import sys; exit(0 if sys.version_info >= (3, 10) else 1)".

Definition probe_cmd (path : string) : list string := [path; "-c"; PROBE].

Definition NO_PYTHON_MESSAGE : string :=
  "Python 3.10+ is required to generate MCP types. " ++
  "Install Python 3.10 or newer and ensure it is discoverable as python3.".

(** The [for] loop of [python_for_generator] over the remaining candidates:
    [Some path] when the loop is left by [return path], [None] when it runs
    to its end. *)
Fixpoint candidates_loop (w : World) (candidates : list string)
  : M (option string) :=
  match candidates with
  | [] => ret None
  | candidate :: rest =>
      path <- shutil_which w candidate ;;
      match path with
      | None => candidates_loop w rest
      | Some path =>
          if (path =? "")%string || (path =? executable w)%string
          then candidates_loop w rest
          else
            result <- subprocess_run w (probe_cmd path) None ;;
            if returncode result =? 0
            then ret (Some path)
            else candidates_loop w rest
      end
  end.

Definition python_for_generator (w : World) : M string :=
  if version_ok w then ret (executable w)
  else
    found <- candidates_loop w CANDIDATES ;;
    match found with
    | Some path => ret path
    | None => raise (RuntimeError NO_PYTHON_MESSAGE)
    end.

Definition crate_dir (w : World) : Pathlib.Path :=
  Pathlib.parent (file_location w).

Definition generator (w : World) : Pathlib.Path :=
  Pathlib.joinpath (crate_dir w) "generate_mcp_types.py".

Definition generator_cmd (w : World) (python_exe : string) : list string :=
  [python_exe; Pathlib.str (generator w); "--check"].

Definition main (w : World) : M Z :=
  python_exe <- python_for_generator w ;;
  result <- subprocess_run w (generator_cmd w python_exe)
                           (Some (Pathlib.str (crate_dir w))) ;;
  ret (returncode result).

(** [raise SystemExit(main())] at the top level: the status the process
    leaves to its parent.  [SystemExit(n)] exits with [n], of which the
    parent sees the low eight bits; an exception that nobody catches prints
    a traceback and exits with status 1. *)
Definition exit_status (r : Exception + Z) : Z :=
  match r with
  | inr code => code mod 256
  | inl _ => 1
  end.

Definition script (w : World) : Z := exit_status (result (main w)).

(* ------------------------------------------------------------------ *)
(** ** Describing a world *)

(** The running interpreter against the minimum version, component-wise. *)
Definition meets_minimum (v : VersionInfo) : Prop :=
  3 < major v \/ (major v = 3 /\ 10 <= minor v).

Definition below_minimum (v : VersionInfo) : Prop :=
  major v < 3 \/ (major v = 3 /\ minor v < 10).

(** The path at which a candidate name can be probed: the name resolves on
    the search path, and to a path other than the running interpreter's. *)
Definition resolves_elsewhere (w : World) (candidate : string) : option string :=
  match which w candidate with
  | Some path =>
      if (path =? "")%string || (path =? executable w)%string
      then None else Some path
  | None => None
  end.

(** The interpreter at [path] answers the version probe with status 0. *)
Definition passes_probe (w : World) (path : string) : bool :=
  match spawn w (probe_cmd path) None with
  | Exited 0 => true
  | _ => false
  end.

(** The probe of [path] runs and answers with a nonzero status. *)
Definition probe_exits_nonzero (w : World) (path : string) : bool :=
  match spawn w (probe_cmd path) None with
  | Exited code => negb (code =? 0)
  | SpawnError _ => false
  end.

(** The probe of [path] cannot be started. *)
Definition probe_fails_to_spawn (w : World) (path : string) : bool :=
  match spawn w (probe_cmd path) None with
  | Exited _ => false
  | SpawnError _ => true
  end.

Definition on_candidate (w : World) (test : World -> string -> bool)
    (candidate : string) : bool :=
  match resolves_elsewhere w candidate with
  | Some path => test w path
  | None => false
  end.

(** A candidate qualifies: it resolves to another interpreter, which passes
    the probe. *)
Definition qualifies (w : World) : string -> bool :=
  on_candidate w passes_probe.

Definition unspawnable (w : World) : string -> bool :=
  on_candidate w probe_fails_to_spawn.

(** Classifying the events of a trace. *)
Definition is_spawn (e : Event) : bool :=
  match e with ESpawn _ _ => true | EWhich _ => false end.

Definition is_probe (e : Event) : bool :=
  match e with
  | ESpawn [_; flag; code] None => (flag =? "-c")%string && (code =? PROBE)%string
  | _ => false
  end.

Definition is_generator_run (e : Event) : bool :=
  match e with
  | ESpawn [_; _; flag] (Some _) => (flag =? "--check")%string
  | _ => false
  end.

Definition count (f : Event -> bool) (t : Trace) : nat :=
  List.length (filter f t).

(** The interpreter a spawn runs: the head of its command line. *)
Definition spawned_program (e : Event) : option string :=
  match e with
  | ESpawn (program :: _) _ => Some program
  | _ => None
  end.

(** [needle] occurs in [text]. *)
Definition mentions (text needle : string) : bool :=
  match String.index 0 needle text with
  | Some _ => true
  | None => false
  end.

(** The same world, seen from another current directory or over another
    file system. *)
Definition with_getcwd (w : World) (dir : string) : World :=
  {| version_info := version_info w;
     executable := executable w;
     file_location := file_location w;
     which := which w;
     spawn := spawn w;
     getcwd := dir;
     is_file := is_file w |}.

Definition with_is_file (w : World) (files : string -> bool) : World :=
  {| version_info := version_info w;
     executable := executable w;
     file_location := file_location w;
     which := which w;
     spawn := spawn w;
     getcwd := getcwd w;
     is_file := files |}.

(* ------------------------------------------------------------------ *)
(** ** Notions used in the statements *)

(** [m], after the events [t] have happened. *)
Definition after {A} (t : Trace) (m : M A) : M A :=
  (t ++ trace m, result m).

(** What one candidate adds to the trace when the loop reaches it: the
    lookup, and the probe if the name resolves elsewhere. *)
Definition turn_events (w : World) (candidate : string) : Trace :=
  EWhich candidate ::
  match resolves_elsewhere w candidate with
  | Some path => [ESpawn (probe_cmd path) None]
  | None => []
  end.

(** The loop moves past a candidate: it neither qualifies nor fails to
    spawn. *)
Definition passed_over (w : World) (candidate : string) : bool :=
  negb (qualifies w candidate) && negb (unspawnable w candidate).

Inductive TurnCase (w : World) (candidate : string) : Prop :=
| turn_skip :
    resolves_elsewhere w candidate = None -> TurnCase w candidate
| turn_accept path :
    resolves_elsewhere w candidate = Some path ->
    spawn w (probe_cmd path) None = Exited 0 -> TurnCase w candidate
| turn_reject path code :
    resolves_elsewhere w candidate = Some path ->
    spawn w (probe_cmd path) None = Exited code -> code <> 0 ->
    TurnCase w candidate
| turn_crash path msg :
    resolves_elsewhere w candidate = Some path ->
    spawn w (probe_cmd path) None = SpawnError msg -> TurnCase w candidate.

(** The interpreter that [main] hands the generator to. *)
Definition generator_run (w : World) (python_exe : string) : Event :=
  ESpawn (generator_cmd w python_exe) (Some (Pathlib.str (crate_dir w))).

(** What resolution has established about the path it returns: it is the
    running interpreter and the version gate let it through, or its probe,
    started from the caller's working directory, exited with status 0. *)
Definition cleared_by_resolution (w : World) (python_exe : string) : Prop :=
  (meets_minimum (version_info w) /\ python_exe = executable w) \/
  spawn w (probe_cmd python_exe) None = Exited 0.

(** The generator is started from [crate_dir]: what [python_exe] denotes
    there answers the version probe with status 0. *)
Definition passes_probe_from_crate_dir (w : World) (python_exe : string)
  : bool :=
  match spawn w (probe_cmd python_exe)
              (Some (Pathlib.str (crate_dir w))) with
  | Exited 0 => true
  | _ => false
  end.

(** The candidate name resolves to a path the loop would probe. *)
Definition resolvable (w : World) (candidate : string) : bool :=
  match resolves_elsewhere w candidate with
  | Some _ => true
  | None => false
  end.

(* ------------------------------------------------------------------ *)
(** ** Worlds used as test inputs *)

Definition py (maj min : Z) : VersionInfo :=
  {| major := maj; minor := min; micro := 0;
     releaselevel := "final"; serial := 0 |}.

Definition tool : Pathlib.Path :=
  ["repo"; "codex-rs"; "mcp-types"; "check_lib_rs.py"].

(** The generator exits with [code]; probes are answered by [probe]. *)
Definition os (probe : string -> Outcome) (code : Z)
    (argv : list string) (cwd : option string) : Outcome :=
  match argv with
  | [path; "-c"; _] => probe path
  | _ => Exited code
  end.

(** Python 3.9 is running; only [python3.11] is installed, and it
    qualifies.  The generator exits with [code]. *)
Definition world_311 (code : Z) : World :=
  {| version_info := py 3 9;
     executable := "/usr/bin/python3.9";
     file_location := tool;
     which := fun name =>
       if (name =? "python3.11")%string then Some "/usr/bin/python3.11"
       else None;
     spawn := os (fun _ => Exited 0) code;
     getcwd := "/home/dev";
     is_file := fun _ => true |}.

(** Python 3.11 is running. *)
Definition world_current : World :=
  {| version_info := py 3 11;
     executable := "/usr/bin/python3.11";
     file_location := tool;
     which := fun _ => None;
     spawn := os (fun _ => Exited 0) 0;
     getcwd := "/home/dev";
     is_file := fun _ => true |}.

(** Python 3.8 is running and no candidate name resolves. *)
Definition world_bare : World :=
  {| version_info := py 3 8;
     executable := "/usr/bin/python3.8";
     file_location := tool;
     which := fun _ => None;
     spawn := os (fun _ => Exited 1) 0;
     getcwd := "/home/dev";
     is_file := fun _ => true |}.

(** Python 3.9 is running, as [python3]; 3.12 is absent, 3.11 is a stale
    shim whose probe exits with 127, 3.10 qualifies. *)
Definition world_shim : World :=
  {| version_info := py 3 9;
     executable := "/usr/bin/python3";
     file_location := tool;
     which := fun name =>
       if (name =? "python3.11")%string then Some "/opt/shims/python3.11"
       else if (name =? "python3.10")%string then Some "/usr/bin/python3.10"
       else if (name =? "python3")%string then Some "/usr/bin/python3"
       else None;
     spawn := os (fun path =>
       if (path =? "/usr/bin/python3.10")%string then Exited 0
       else Exited 127) 0;
     getcwd := "/home/dev";
     is_file := fun _ => true |}.

(** Python 3.9 is running; [python3.12] resolves to a file that cannot be
    executed, and [python3.11] qualifies. *)
Definition world_broken : World :=
  {| version_info := py 3 9;
     executable := "/usr/bin/python3.9";
     file_location := tool;
     which := fun name =>
       if (name =? "python3.12")%string then Some "/opt/broken/python3.12"
       else if (name =? "python3.11")%string then Some "/usr/bin/python3.11"
       else None;
     spawn := os (fun path =>
       if (path =? "/opt/broken/python3.12")%string
       then SpawnError "Exec format error"
       else Exited 0) 0;
     getcwd := "/home/dev";
     is_file := fun _ => true |}.

(** Python 3.9 is running; all four candidate names resolve, each to its
    own path, and only the last one, [python3], qualifies. *)
Definition world_last : World :=
  {| version_info := py 3 9;
     executable := "/usr/bin/python3.9";
     file_location := tool;
     which := fun name => Some ("/usr/local/bin/" ++ name)%string;
     spawn := os (fun path =>
       if (path =? "/usr/local/bin/python3")%string then Exited 0
       else Exited 1) 0;
     getcwd := "/home/dev";
     is_file := fun _ => true |}.

(** Python 3.9 is running; [python3.12] is absent, and [python3.11],
    [python3.10] and [python3] all qualify. *)
Definition world_several : World :=
  {| version_info := py 3 9;
     executable := "/usr/bin/python3.9";
     file_location := tool;
     which := fun name =>
       if (name =? "python3.12")%string then None
       else Some ("/usr/local/bin/" ++ name)%string;
     spawn := os (fun _ => Exited 0) 0;
     getcwd := "/home/dev";
     is_file := fun _ => true |}.

(** Python 3.9 is running and is what [python3] resolves to; no other
    candidate name resolves. *)
Definition world_self : World :=
  {| version_info := py 3 9;
     executable := "/usr/bin/python3";
     file_location := tool;
     which := fun name =>
       if (name =? "python3")%string then Some "/usr/bin/python3" else None;
     spawn := os (fun _ => Exited 1) 0;
     getcwd := "/home/dev";
     is_file := fun _ => true |}.

(** As [world_311], but the child is killed by signal 9, which
    [subprocess.run] reports as return code -9. *)
Definition world_killed : World := world_311 (-9).

(** As [world_311], but the generator script is missing: the child
    interpreter cannot open it and exits with status 2. *)
Definition world_no_script : World :=
  with_is_file (world_311 2) (fun _ => false).

(** Python 3.11 is running, but [sys.executable] is empty, and nothing can
    be started under an empty program name. *)
Definition world_no_executable : World :=
  {| version_info := py 3 11;
     executable := "";
     file_location := tool;
     which := fun _ => None;
     spawn := fun argv _ =>
       match argv with
       | "" :: _ => SpawnError "No such file or directory"
       | _ => Exited 0
       end;
     getcwd := "/home/dev";
     is_file := fun _ => true |}.

(** Python 3.9 is running; [python3.12] resolves to an empty path,
    [python3.11] to the running interpreter, [python3.10] is absent, and
    [python3] is a 3.8 whose probe exits with 1. *)
Definition world_old : World :=
  {| version_info := py 3 9;
     executable := "/usr/bin/python3.9";
     file_location := tool;
     which := fun name =>
       if (name =? "python3.12")%string then Some ""
       else if (name =? "python3.11")%string then Some "/usr/bin/python3.9"
       else if (name =? "python3")%string then Some "/usr/bin/python3"
       else None;
     spawn := os (fun _ => Exited 1) 0;
     getcwd := "/home/dev";
     is_file := fun _ => true |}.

(** Python 3.9 is running, and the search path starts with an empty entry,
    which stands for the current directory.  The caller's directory holds a
    [python3] that is a 3.12, so [shutil.which] gives the bare name
    [python3]; started from the caller's directory the name runs that 3.12.
    The directory of the script holds no [python3]: started from there the
    name runs the 3.8 further down the search path, which fails the probe
    and the generator alike. *)
Definition world_relative : World :=
  {| version_info := py 3 9;
     executable := "/opt/old/bin/python3.9";
     file_location := tool;
     which := fun name =>
       if (name =? "python3")%string then Some "python3" else None;
     spawn := fun argv cwd =>
       match argv, cwd with
       | [_; "-c"; _], None => Exited 0
       | _, _ => Exited 1
       end;
     getcwd := "/home/dev/new";
     is_file := fun _ => true |}.

(* ------------------------------------------------------------------ *)
(** ** The scenarios of the specification *)

Example scenario_311 :
  main (world_311 7) =
  ([EWhich "python3.12"; EWhich "python3.11";
    ESpawn ["/usr/bin/python3.11"; "-c"; PROBE] None;
    ESpawn ["/usr/bin/python3.11";
            "/repo/codex-rs/mcp-types/generate_mcp_types.py"; "--check"]
           (Some "/repo/codex-rs/mcp-types")],
   inr 7).
Proof. reflexivity. Qed.

Example scenario_current :
  python_for_generator world_current = ([], inr "/usr/bin/python3.11").
Proof. reflexivity. Qed.

Example scenario_bare :
  main world_bare =
  ([EWhich "python3.12"; EWhich "python3.11"; EWhich "python3.10";
    EWhich "python3"],
   inl (RuntimeError NO_PYTHON_MESSAGE)).
Proof. reflexivity. Qed.

Example scenario_shim :
  python_for_generator world_shim =
  ([EWhich "python3.12"; EWhich "python3.11";
    ESpawn (probe_cmd "/opt/shims/python3.11") None;
    EWhich "python3.10";
    ESpawn (probe_cmd "/usr/bin/python3.10") None],
   inr "/usr/bin/python3.10").
Proof. reflexivity. Qed.

Example scenario_self :
  main world_self =
  ([EWhich "python3.12"; EWhich "python3.11"; EWhich "python3.10";
    EWhich "python3"],
   inl (RuntimeError NO_PYTHON_MESSAGE)).
Proof. reflexivity. Qed.

(* ------------------------------------------------------------------ *)
(** ** The version gate *)

Lemma version_ok_true (w : World) :
  version_ok w = true <-> meets_minimum (version_info w).
Proof.
  unfold version_ok, version_tuple, MIN_VERSION, meets_minimum; simpl.
  destruct (Z.eqb_spec (major (version_info w)) 3) as [E3 | N3].
  - destruct (Z.eqb_spec (minor (version_info w)) 10) as [E10 | N10].
    + split; [lia | reflexivity].
    + rewrite Z.ltb_lt. lia.
  - rewrite Z.ltb_lt. lia.
Qed.

Lemma version_ok_false (w : World) :
  version_ok w = false <-> below_minimum (version_info w).
Proof.
  unfold below_minimum.
  destruct (version_ok w) eqn:E.
  - apply version_ok_true in E. unfold meets_minimum in E.
    split; [discriminate | lia].
  - split; [intros _ | reflexivity].
    assert (N : ~ meets_minimum (version_info w)).
    { intros H. apply version_ok_true in H. congruence. }
    unfold meets_minimum in N. lia.
Qed.

(* ------------------------------------------------------------------ *)
(** ** Sequencing *)

Lemma bind_ret {A B} (t : Trace) (a : A) (k : A -> M B) :
  bind (t, inr a) k = after t (k a).
Proof. unfold bind, after, trace, result. destruct (k a); reflexivity. Qed.

Lemma trace_after {A} (t : Trace) (m : M A) : trace (after t m) = t ++ trace m.
Proof. reflexivity. Qed.

Lemma result_after {A} (t : Trace) (m : M A) : result (after t m) = result m.
Proof. reflexivity. Qed.

Lemma after_after {A} (t u : Trace) (m : M A) :
  after t (after u m) = after (t ++ u) m.
Proof. unfold after; simpl. now rewrite app_assoc. Qed.

Lemma count_app (f : Event -> bool) (t u : Trace) :
  count f (t ++ u) = (count f t + count f u)%nat.
Proof. unfold count. now rewrite filter_app, length_app. Qed.

(* ------------------------------------------------------------------ *)
(** ** One turn of the candidate loop *)

Lemma candidates_loop_cons (w : World) (candidate : string) (rest : list string) :
  candidates_loop w (candidate :: rest) =
  after [EWhich candidate]
    match which w candidate with
    | None => candidates_loop w rest
    | Some path =>
        if (path =? "")%string || (path =? executable w)%string
        then candidates_loop w rest
        else
          result <- subprocess_run w (probe_cmd path) None ;;
          if returncode result =? 0
          then ret (Some path)
          else candidates_loop w rest
    end.
Proof.
  change (candidates_loop w (candidate :: rest)) with
    (bind (shutil_which w candidate) (fun path =>
       match path with
       | None => candidates_loop w rest
       | Some path =>
           if (path =? "")%string || (path =? executable w)%string
           then candidates_loop w rest
           else
             result <- subprocess_run w (probe_cmd path) None ;;
             if returncode result =? 0
             then ret (Some path)
             else candidates_loop w rest
       end)).
  unfold shutil_which. now rewrite bind_ret.
Qed.

Section Turn.

Variable w : World.
Variables (candidate : string) (rest : list string).

(** The candidate is passed over without a probe: its name does not
    resolve, or resolves to the running interpreter. *)
Lemma loop_skip :
  resolves_elsewhere w candidate = None ->
  candidates_loop w (candidate :: rest) =
  after [EWhich candidate] (candidates_loop w rest).
Proof.
  unfold resolves_elsewhere. intros H. rewrite candidates_loop_cons.
  destruct (which w candidate) as [p |]; [| reflexivity].
  destruct ((p =? "")%string || (p =? executable w)%string);
    [reflexivity | discriminate].
Qed.

Variable path : string.
Hypothesis resolved : resolves_elsewhere w candidate = Some path.

Lemma resolved_which :
  which w candidate = Some path /\
  ((path =? "")%string || (path =? executable w)%string) = false.
Proof.
  unfold resolves_elsewhere in resolved.
  destruct (which w candidate) as [p |]; [| discriminate].
  destruct ((p =? "")%string || (p =? executable w)%string) eqn:E;
    [discriminate |].
  inversion resolved; subst. now split.
Qed.

Lemma resolved_differs : path <> executable w /\ path <> "".
Proof.
  destruct resolved_which as [_ H]. apply orb_false_iff in H.
  destruct H as [H1 H2].
  apply String.eqb_neq in H1. apply String.eqb_neq in H2. now split.
Qed.

(** The probe exits with 0: the loop is left with [path]. *)
Lemma loop_accept :
  spawn w (probe_cmd path) None = Exited 0 ->
  candidates_loop w (candidate :: rest) =
  ([EWhich candidate; ESpawn (probe_cmd path) None], inr (Some path)).
Proof.
  intros H. destruct resolved_which as [Hw Hc].
  rewrite candidates_loop_cons, Hw, Hc.
  unfold subprocess_run. rewrite H, bind_ret. reflexivity.
Qed.

(** The probe exits with another status: on to the next candidate. *)
Lemma loop_reject (code : Z) :
  spawn w (probe_cmd path) None = Exited code -> code <> 0 ->
  candidates_loop w (candidate :: rest) =
  after [EWhich candidate; ESpawn (probe_cmd path) None]
  (candidates_loop w rest).
Proof.
  intros H N. destruct resolved_which as [Hw Hc].
  rewrite candidates_loop_cons, Hw, Hc.
  unfold subprocess_run. rewrite H, bind_ret. simpl returncode.
  destruct (Z.eqb_spec code 0) as [E | _]; [contradiction |].
  now rewrite after_after.
Qed.

(** The probe cannot be started: [subprocess.run] raises, and nothing in
    the loop catches it. *)
Lemma loop_crash (msg : string) :
  spawn w (probe_cmd path) None = SpawnError msg ->
  candidates_loop w (candidate :: rest) =
  ([EWhich candidate; ESpawn (probe_cmd path) None], inl (OSError msg)).
Proof.
  intros H. destruct resolved_which as [Hw Hc].
  rewrite candidates_loop_cons, Hw, Hc.
  unfold subprocess_run. rewrite H. reflexivity.
Qed.

End Turn.

(* ------------------------------------------------------------------ *)
(** ** The whole candidate loop *)

Lemma turn_cases (w : World) (candidate : string) : TurnCase w candidate.
Proof.
  destruct (resolves_elsewhere w candidate) as [p |] eqn:R;
    [| now apply turn_skip].
  destruct (spawn w (probe_cmd p) None) as [code | msg] eqn:S.
  - destruct (Z.eq_dec code 0) as [-> | N].
    + now apply turn_accept with p.
    + now apply turn_reject with p code.
  - now apply turn_crash with p msg.
Qed.

Ltac turn_facts :=
  unfold passed_over, qualifies, unspawnable, on_candidate, turn_events,
         passes_probe, probe_fails_to_spawn, probe_exits_nonzero in *;
  repeat match goal with
         | H : resolves_elsewhere _ _ = _ |- _ => rewrite H in *
         | H : spawn _ _ _ = _ |- _ => rewrite H in *
         end.

Section Loop.

Variable w : World.

Lemma loop_pass (candidate : string) (rest : list string) :
  passed_over w candidate = true ->
  candidates_loop w (candidate :: rest) =
  after (turn_events w candidate) (candidates_loop w rest).
Proof.
  intros P.
  destruct (turn_cases w candidate) as [R | p R S | p code R S N | p msg R S].
  - rewrite loop_skip by assumption. now turn_facts.
  - turn_facts. discriminate.
  - rewrite (loop_reject w candidate rest p R code S N). now turn_facts.
  - turn_facts. discriminate.
Qed.

Lemma loop_qualifies (candidate : string) (rest : list string) :
  qualifies w candidate = true ->
  exists path,
    resolves_elsewhere w candidate = Some path /\
    candidates_loop w (candidate :: rest) =
    (turn_events w candidate, inr (Some path)).
Proof.
  intros Q.
  destruct (turn_cases w candidate) as [R | p R S | p code R S N | p msg R S];
    turn_facts; try discriminate.
  - exists p. split; [reflexivity |].
    rewrite (loop_accept w candidate rest p) by (turn_facts; auto).
    now turn_facts.
  - destruct code; try discriminate. contradiction.
Qed.

Lemma loop_unspawnable (candidate : string) (rest : list string) :
  unspawnable w candidate = true ->
  exists msg,
    candidates_loop w (candidate :: rest) =
    (turn_events w candidate, inl (OSError msg)).
Proof.
  intros U.
  destruct (turn_cases w candidate) as [R | p R S | p code R S N | p msg R S];
    turn_facts; try discriminate.
  exists msg.
  rewrite (loop_crash w candidate rest p) with (msg := msg)
    by (turn_facts; auto).
  now turn_facts.
Qed.

(** Candidates that are passed over leave the rest of the loop as it is. *)
Lemma loop_prefix (pre rest : list string) :
  forallb (passed_over w) pre = true ->
  candidates_loop w (pre ++ rest) =
  after (flat_map (turn_events w) pre) (candidates_loop w rest).
Proof.
  induction pre as [| c pre IH]; intros P.
  - simpl. now destruct (candidates_loop w rest).
  - simpl in P. apply andb_true_iff in P as [Pc Ppre].
    change ((c :: pre) ++ rest) with (c :: (pre ++ rest)).
    rewrite loop_pass by assumption. rewrite IH by assumption.
    rewrite after_after. reflexivity.
Qed.

(** The loop runs to its end exactly over candidates it passes over. *)
Lemma loop_exhausted (candidates : list string) :
  forallb (passed_over w) candidates = true ->
  candidates_loop w candidates =
  (flat_map (turn_events w) candidates, inr None).
Proof.
  intros P. rewrite <- (app_nil_r candidates) at 1.
  rewrite loop_prefix by assumption. simpl. unfold after. simpl.
  now rewrite app_nil_r.
Qed.

(** Every event of the loop belongs to the turn of a candidate. *)
Lemma loop_events (candidates : list string) (e : Event) :
  In e (trace (candidates_loop w candidates)) ->
  exists c, In c candidates /\ In e (turn_events w c).
Proof.
  induction candidates as [| c cs IH]; simpl; [contradiction |].
  destruct (qualifies w c) eqn:Q.
  { destruct (loop_qualifies c cs Q) as (p & _ & E).
    change (In e (trace (candidates_loop w (c :: cs))) ->
            exists c0, (c = c0 \/ In c0 cs) /\ In e (turn_events w c0)).
    rewrite E. simpl trace. intros H. exists c. auto. }
  destruct (unspawnable w c) eqn:U.
  { destruct (loop_unspawnable c cs U) as (msg & E).
    change (In e (trace (candidates_loop w (c :: cs))) ->
            exists c0, (c = c0 \/ In c0 cs) /\ In e (turn_events w c0)).
    rewrite E. simpl trace. intros H. exists c. auto. }
  change (In e (trace (candidates_loop w (c :: cs))) ->
          exists c0, (c = c0 \/ In c0 cs) /\ In e (turn_events w c0)).
  rewrite loop_pass by (unfold passed_over; now rewrite Q, U).
  rewrite trace_after, in_app_iff. intros [H | H].
  - exists c. auto.
  - destruct (IH H) as (c0 & I & T). exists c0. auto.
Qed.

(** The loop spawns at most one process per candidate. *)
Lemma turn_spawns (candidate : string) :
  (count is_spawn (turn_events w candidate) <= 1)%nat.
Proof.
  unfold turn_events, count.
  destruct (resolves_elsewhere w candidate); simpl; lia.
Qed.

Lemma loop_spawns (candidates : list string) :
  (count is_spawn (trace (candidates_loop w candidates))
   <= List.length candidates)%nat.
Proof.
  induction candidates as [| c cs IH]; [apply Nat.le_refl |].
  pose proof (turn_spawns c) as T.
  destruct (qualifies w c) eqn:Q.
  { destruct (loop_qualifies c cs Q) as (p & _ & E).
    rewrite E. unfold trace. cbn [fst List.length]. lia. }
  destruct (unspawnable w c) eqn:U.
  { destruct (loop_unspawnable c cs U) as (msg & E).
    rewrite E. unfold trace. cbn [fst List.length]. lia. }
  rewrite loop_pass by (unfold passed_over; now rewrite Q, U).
  rewrite trace_after, count_app. cbn [List.length]. lia.
Qed.

(** What the loop returns is a path that resolved elsewhere and passed
    its probe. *)
Lemma loop_returns (candidates : list string) (path : string) :
  result (candidates_loop w candidates) = inr (Some path) ->
  exists c,
    In c candidates /\ resolves_elsewhere w c = Some path /\
    passes_probe w path = true.
Proof.
  induction candidates as [| c cs IH]; [discriminate |].
  destruct (qualifies w c) eqn:Q.
  { destruct (loop_qualifies c cs Q) as (p & R & E).
    rewrite E. simpl result. intros H. inversion H; subst p.
    exists c. split; [now left |]. split; [assumption |].
    unfold qualifies, on_candidate in Q. now rewrite R in Q. }
  destruct (unspawnable w c) eqn:U.
  { destruct (loop_unspawnable c cs U) as (msg & E).
    rewrite E. discriminate. }
  rewrite loop_pass by (unfold passed_over; now rewrite Q, U).
  rewrite result_after. intros H.
  destruct (IH H) as (c0 & I & R & P). exists c0. split; [now right | auto].
Qed.

End Loop.

(* ------------------------------------------------------------------ *)
(** ** [python_for_generator] and [main] *)

Lemma resolver_sufficient (w : World) :
  version_ok w = true ->
  python_for_generator w = ([], inr (executable w)).
Proof. unfold python_for_generator. now intros ->. Qed.

Lemma resolver_insufficient (w : World) :
  version_ok w = false ->
  python_for_generator w =
  (trace (candidates_loop w CANDIDATES),
   match result (candidates_loop w CANDIDATES) with
   | inl e => inl e
   | inr (Some path) => inr path
   | inr None => inl (RuntimeError NO_PYTHON_MESSAGE)
   end).
Proof.
  unfold python_for_generator. intros ->.
  destruct (candidates_loop w CANDIDATES) as [t [e | [p |]]];
    unfold bind, ret, raise, trace, result; simpl; now rewrite ?app_nil_r.
Qed.

(** The events of resolution are lookups and probes of candidates. *)
Lemma resolver_events (w : World) (e : Event) :
  In e (trace (python_for_generator w)) ->
  exists c, In c CANDIDATES /\ In e (turn_events w c).
Proof.
  destruct (version_ok w) eqn:V.
  - rewrite resolver_sufficient by assumption. contradiction.
  - rewrite resolver_insufficient by assumption. apply loop_events.
Qed.

Lemma turn_event_kinds (w : World) (c : string) (e : Event) :
  In e (turn_events w c) ->
  e = EWhich c \/
  exists path, resolves_elsewhere w c = Some path /\
               e = ESpawn (probe_cmd path) None.
Proof.
  unfold turn_events. intros [<- | H]; [now left |].
  destruct (resolves_elsewhere w c) as [p |]; [| contradiction].
  destruct H as [<- | []]. right. now exists p.
Qed.

Lemma resolver_spawns (w : World) :
  (count is_spawn (trace (python_for_generator w)) <= 4)%nat.
Proof.
  destruct (version_ok w) eqn:V.
  - rewrite resolver_sufficient by assumption. apply Nat.le_0_l.
  - rewrite resolver_insufficient by assumption.
    apply (loop_spawns w CANDIDATES).
Qed.

Lemma count_none (f : Event -> bool) (t : Trace) :
  (forall e, In e t -> f e = false) -> count f t = 0%nat.
Proof.
  unfold count. induction t as [| e t IH]; intros H; [reflexivity |].
  simpl. rewrite (H e) by now left. apply IH. intros e' I. apply H. now right.
Qed.

Lemma count_all (f g : Event -> bool) (t : Trace) :
  (forall e, In e t -> f e = g e) -> count f t = count g t.
Proof.
  unfold count. induction t as [| e t IH]; intros H; [reflexivity |].
  pose proof (IH (fun e' I => H e' (or_intror I))) as IH'.
  simpl. rewrite (H e) by now left.
  destruct (g e); simpl; now rewrite IH'.
Qed.

(** Resolution never runs the generator, and all it spawns are probes. *)
Lemma resolver_no_generator (w : World) :
  count is_generator_run (trace (python_for_generator w)) = 0%nat.
Proof.
  apply count_none. intros e I.
  destruct (resolver_events w e I) as (c & _ & T).
  destruct (turn_event_kinds w c e T) as [-> | (p & _ & ->)]; reflexivity.
Qed.

Lemma resolver_spawns_probes (w : World) :
  count is_probe (trace (python_for_generator w)) =
  count is_spawn (trace (python_for_generator w)).
Proof.
  apply count_all. intros e I.
  destruct (resolver_events w e I) as (c & _ & T).
  destruct (turn_event_kinds w c e T) as [-> | (p & _ & ->)];
    [reflexivity |].
  unfold probe_cmd, is_probe, is_spawn.
  now rewrite !String.eqb_refl.
Qed.

Lemma main_resolved (w : World) (t : Trace) (python_exe : string) :
  python_for_generator w = (t, inr python_exe) ->
  main w =
  (t ++ [generator_run w python_exe],
   match spawn w (generator_cmd w python_exe)
               (Some (Pathlib.str (crate_dir w))) with
   | Exited code => inr code
   | SpawnError msg => inl (OSError msg)
   end).
Proof.
  unfold main. intros ->. rewrite bind_ret. unfold subprocess_run.
  destruct (spawn w _ _) as [code | msg]; reflexivity.
Qed.

Lemma main_unresolved (w : World) (t : Trace) (e : Exception) :
  python_for_generator w = (t, inl e) -> main w = (t, inl e).
Proof. unfold main. now intros ->. Qed.

(** Neither the caller's current directory nor the presence of any file is
    consulted. *)
Lemma loop_ignores (w w' : World) (candidates : list string) :
  executable w' = executable w -> which w' = which w -> spawn w' = spawn w ->
  candidates_loop w' candidates = candidates_loop w candidates.
Proof.
  intros He Hw Hs.
  induction candidates as [| c cs IH]; [reflexivity |].
  rewrite !candidates_loop_cons, Hw, He, IH. unfold subprocess_run.
  now rewrite Hs.
Qed.

Lemma main_ignores (w w' : World) :
  version_info w' = version_info w -> executable w' = executable w ->
  file_location w' = file_location w ->
  which w' = which w -> spawn w' = spawn w ->
  main w' = main w.
Proof.
  intros Hv He Hf Hw Hs.
  unfold main, python_for_generator, version_ok, generator_cmd, generator,
    crate_dir, subprocess_run.
  now rewrite Hv, He, Hf, Hs, (loop_ignores w w' CANDIDATES He Hw Hs).
Qed.

Lemma candidates_distinct : NoDup CANDIDATES.
Proof.
  unfold CANDIDATES.
  repeat (apply NoDup_cons; [simpl; intuition discriminate |]).
  apply NoDup_nil.
Qed.

(** Where the loop stops when a candidate qualifies: the candidates it
    reaches are among those listed up to the qualifying one. *)
Lemma loop_stops (w : World) (pre post : list string) (c : string) :
  qualifies w c = true ->
  exists reached,
    incl reached (pre ++ [c]) /\
    (List.length reached <= List.length pre + 1)%nat /\
    trace (candidates_loop w (pre ++ c :: post)) =
    flat_map (turn_events w) reached.
Proof.
  intros Q. induction pre as [| a pre IH].
  - destruct (loop_qualifies w c post Q) as (p & _ & E).
    exists [c]. simpl app. rewrite E. simpl.
    rewrite app_nil_r. split; [apply incl_refl | split; [lia | reflexivity]].
  - change ((a :: pre) ++ c :: post) with (a :: (pre ++ c :: post)).
    assert (Single : forall r : Exception + option string,
      candidates_loop w (a :: pre ++ c :: post) = (turn_events w a, r) ->
      exists reached,
        incl reached ((a :: pre) ++ [c]) /\
        (List.length reached <= List.length (a :: pre) + 1)%nat /\
        trace (candidates_loop w (a :: pre ++ c :: post)) =
        flat_map (turn_events w) reached).
    { intros r E. exists [a]. rewrite E. simpl. rewrite app_nil_r.
      split; [| split; [lia | reflexivity]].
      intros x [<- | []]. now left. }
    destruct (qualifies w a) eqn:Qa.
    { destruct (loop_qualifies w a (pre ++ c :: post) Qa) as (p & _ & E).
      now apply Single with (inr (Some p)). }
    destruct (unspawnable w a) eqn:Ua.
    { destruct (loop_unspawnable w a (pre ++ c :: post) Ua) as (msg & E).
      now apply Single with (inl (OSError msg)). }
    destruct IH as (reached & I & L & T).
    exists (a :: reached).
    rewrite loop_pass by (unfold passed_over; now rewrite Qa, Ua).
    rewrite trace_after, T. simpl.
    split; [| split; [lia | reflexivity]].
    intros x [<- | H]; [now left | right; now apply I].
Qed.

Lemma flat_map_spawns (w : World) (reached : list string) :
  (count is_spawn (flat_map (turn_events w) reached)
   <= List.length reached)%nat.
Proof.
  induction reached as [| c cs IH]; [apply Nat.le_refl |].
  change (flat_map (turn_events w) (c :: cs))
    with (turn_events w c ++ flat_map (turn_events w) cs).
  rewrite count_app. pose proof (turn_spawns w c).
  cbn [List.length]. lia.
Qed.

Lemma flat_map_which (w : World) (reached : list string) (c : string) :
  In (EWhich c) (flat_map (turn_events w) reached) -> In c reached.
Proof.
  rewrite in_flat_map. intros (c0 & I & T).
  destruct (turn_event_kinds w c0 _ T) as [E | (p & _ & E)];
    [inversion E; now subst | discriminate].
Qed.

(* ------------------------------------------------------------------ *)
(** ** The properties of the specification *)

(** C1.  When resolution has produced an interpreter and the generator child
    leaves a return code in [0,255], [main] returns that code and the whole
    script exits with exactly that status. *)
Theorem exit_code_forwarded (w : World) (t : Trace) (python_exe : string)
    (code : Z) :
  python_for_generator w = (t, inr python_exe) ->
  spawn w (generator_cmd w python_exe) (Some (Pathlib.str (crate_dir w)))
    = Exited code ->
  0 <= code <= 255 ->
  result (main w) = inr code /\ script w = code.
Proof.
  intros R S B. unfold script.
  rewrite (main_resolved w t python_exe R), S.
  unfold result, exit_status; simpl.
  split; [reflexivity | now apply Z.mod_small; lia].
Qed.

Lemma exit_code_forwarded_witness :
  result (main (world_311 7)) = inr 7 /\ script (world_311 7) = 7.
Proof.
  apply (exit_code_forwarded (world_311 7)
           [EWhich "python3.12"; EWhich "python3.11";
            ESpawn (probe_cmd "/usr/bin/python3.11") None]
           "/usr/bin/python3.11" 7).
  - reflexivity.
  - reflexivity.
  - lia.
Defined.

(** Outside [0,255] the status is not the child's return code: a child
    killed by signal 9 has return code -9, and the script exits with 247. *)
Example killed_child_status :
  result (main world_killed) = inr (-9) /\ script world_killed = 247.
Proof. split; reflexivity. Qed.

(** C3.  When the running interpreter is 3.10 or newer,
    [python_for_generator] returns [sys.executable] and its trace is empty:
    no lookup on the search path and no probe process. *)
Theorem sufficient_interpreter_returned (w : World) :
  meets_minimum (version_info w) ->
  python_for_generator w = ([], inr (executable w)).
Proof. intros H. apply resolver_sufficient. now apply version_ok_true. Qed.

Lemma sufficient_interpreter_returned_witness :
  python_for_generator world_current = ([], inr "/usr/bin/python3.11").
Proof.
  apply (sufficient_interpreter_returned world_current).
  unfold meets_minimum; simpl. lia.
Defined.

(** C5.  When the running interpreter is below 3.10 and the loop runs over
    all four candidates without finding one that qualifies,
    [python_for_generator] raises [RuntimeError]; its message names the
    3.10 requirement and tells the operator to install such an interpreter
    where [python3] finds it. *)
Theorem no_qualifying_interpreter (w : World) :
  below_minimum (version_info w) ->
  forallb (passed_over w) CANDIDATES = true ->
  python_for_generator w =
    (flat_map (turn_events w) CANDIDATES,
     inl (RuntimeError NO_PYTHON_MESSAGE)) /\
  mentions NO_PYTHON_MESSAGE "Python 3.10+ is required" = true /\
  mentions NO_PYTHON_MESSAGE "Install Python 3.10 or newer" = true /\
  mentions NO_PYTHON_MESSAGE "discoverable as python3" = true.
Proof.
  intros V P. apply version_ok_false in V.
  rewrite (resolver_insufficient w V), (loop_exhausted w CANDIDATES P).
  repeat split; reflexivity.
Qed.

Lemma no_qualifying_interpreter_witness :
  python_for_generator world_bare =
    (flat_map (turn_events world_bare) CANDIDATES,
     inl (RuntimeError NO_PYTHON_MESSAGE)) /\
  mentions NO_PYTHON_MESSAGE "Python 3.10+ is required" = true /\
  mentions NO_PYTHON_MESSAGE "Install Python 3.10 or newer" = true /\
  mentions NO_PYTHON_MESSAGE "discoverable as python3" = true.
Proof.
  apply (no_qualifying_interpreter world_bare).
  - unfold below_minimum; simpl. lia.
  - reflexivity.
Defined.


(** C2, as stated, fails: with Python 3.9 running, [python3.12] resolving to
    a file that cannot be executed and [python3.11] the first (and only)
    candidate that qualifies, [python_for_generator] does not return
    [python3.11]: the [OSError] of the first probe ends it. *)
Lemma first_qualifying_candidate_lost :
  below_minimum (version_info world_broken) /\
  find (qualifies world_broken) CANDIDATES = Some "python3.11" /\
  resolves_elsewhere world_broken "python3.11" = Some "/usr/bin/python3.11" /\
  python_for_generator world_broken =
    ([EWhich "python3.12"; ESpawn (probe_cmd "/opt/broken/python3.12") None],
     inl (OSError "Exec format error")).
Proof.
  split; [unfold below_minimum; simpl; lia |].
  repeat split; reflexivity.
Qed.

(** C2, amended.  When the running interpreter is below 3.10, a candidate
    qualifies, and every candidate listed before it is passed over (it does
    not qualify, and its probe, if any, could be started), then
    [python_for_generator] returns the path of that candidate, whatever the
    candidates listed after it are. *)
Theorem first_qualifying_candidate_returned (w : World)
    (pre post : list string) (c : string) :
  below_minimum (version_info w) ->
  CANDIDATES = pre ++ c :: post ->
  forallb (passed_over w) pre = true ->
  qualifies w c = true ->
  exists path,
    resolves_elsewhere w c = Some path /\
    result (python_for_generator w) = inr path.
Proof.
  intros V Split P Q. apply version_ok_false in V.
  destruct (loop_qualifies w c post Q) as (path & R & E).
  exists path. split; [assumption |].
  rewrite (resolver_insufficient w V), Split, (loop_prefix w pre _ P), E.
  reflexivity.
Qed.

Lemma first_qualifying_candidate_returned_witness :
  exists path,
    resolves_elsewhere world_several "python3.11" = Some path /\
    result (python_for_generator world_several) = inr path.
Proof.
  apply (first_qualifying_candidate_returned world_several
           ["python3.12"] ["python3.10"; "python3"] "python3.11").
  - unfold below_minimum; simpl. lia.
  - reflexivity.
  - reflexivity.
  - reflexivity.
Defined.

(** In that world the later candidates qualify as well. *)
Example several_qualify :
  map (qualifies world_several) CANDIDATES = [false; true; true; true] /\
  result (python_for_generator world_several) =
    inr "/usr/local/bin/python3.11".
Proof. split; reflexivity. Qed.




(** C7.  With the running interpreter below 3.10, a candidate name that
    resolves to the running interpreter's own path is passed over with its
    lookup alone: no event of resolution spawns that path, and resolution
    does not return it. *)
Theorem running_interpreter_skipped (w : World) (c path : string) :
  below_minimum (version_info w) ->
  In c CANDIDATES ->
  which w c = Some path ->
  path = executable w ->
  turn_events w c = [EWhich c] /\
  (forall e, In e (trace (python_for_generator w)) ->
             spawned_program e <> Some path) /\
  result (python_for_generator w) <> inr path.
Proof.
  intros V I W ->. apply version_ok_false in V.
  split; [| split].
  - unfold turn_events, resolves_elsewhere.
    now rewrite W, String.eqb_refl, orb_true_r.
  - intros e H.
    destruct (resolver_events w e H) as (c0 & _ & T).
    destruct (turn_event_kinds w c0 e T) as [-> | (p & R & ->)];
      [discriminate |].
    destruct (resolved_differs w c0 p R) as [D _].
    simpl. congruence.
  - rewrite (resolver_insufficient w V). unfold result at 1. cbn [snd].
    destruct (result (candidates_loop w CANDIDATES)) as [e | [p |]] eqn:L;
      try discriminate.
    destruct (loop_returns w CANDIDATES p L) as (c0 & _ & R & _).
    destruct (resolved_differs w c0 p R) as [D _]. congruence.
Qed.

Lemma running_interpreter_skipped_witness :
  turn_events world_self "python3" = [EWhich "python3"] /\
  (forall e, In e (trace (python_for_generator world_self)) ->
             spawned_program e <> Some "/usr/bin/python3") /\
  result (python_for_generator world_self) <> inr "/usr/bin/python3".
Proof.
  apply (running_interpreter_skipped world_self "python3" "/usr/bin/python3").
  - unfold below_minimum; simpl. lia.
  - simpl. tauto.
  - reflexivity.
  - reflexivity.
Defined.

(** The trace of [main]: resolution, then the generator if resolution
    returned. *)
Lemma main_trace (w : World) :
  trace (main w) =
  trace (python_for_generator w) ++
  match result (python_for_generator w) with
  | inr python_exe => [generator_run w python_exe]
  | inl _ => []
  end.
Proof.
  destruct (python_for_generator w) as [t [e | p]] eqn:R.
  - rewrite (main_unresolved w t e R). simpl. now rewrite app_nil_r.
  - rewrite (main_resolved w t p R). reflexivity.
Qed.

Lemma resolver_event_kind (w : World) (e : Event) :
  In e (trace (python_for_generator w)) -> is_generator_run e = false.
Proof.
  intros I. destruct (resolver_events w e I) as (c & _ & T).
  destruct (turn_event_kinds w c e T) as [-> | (p & _ & ->)]; reflexivity.
Qed.

(** What resolution returns, it has cleared. *)
Lemma resolver_returns (w : World) (python_exe : string) :
  result (python_for_generator w) = inr python_exe ->
  cleared_by_resolution w python_exe.
Proof.
  unfold cleared_by_resolution. destruct (version_ok w) eqn:V.
  - rewrite resolver_sufficient by assumption. intros H.
    left. split; [now apply version_ok_true | now inversion H].
  - rewrite resolver_insufficient by assumption. unfold result at 1.
    cbn [snd].
    destruct (result (candidates_loop w CANDIDATES)) as [e | [p |]] eqn:L;
      try discriminate.
    intros H. inversion H; subst p.
    destruct (loop_returns w CANDIDATES python_exe L) as (c & _ & _ & P).
    right. unfold passes_probe in P.
    destruct (spawn w (probe_cmd python_exe) None) as [[| |] |];
      now try discriminate.
Qed.

(** Resolution fails when the running interpreter is below the minimum and
    no candidate qualifies. *)
Lemma resolver_fails (w : World) :
  version_ok w = false ->
  (forall c, In c CANDIDATES -> qualifies w c = false) ->
  exists e, result (python_for_generator w) = inl e.
Proof.
  intros V N. rewrite resolver_insufficient by assumption.
  unfold result at 1. cbn [snd].
  destruct (result (candidates_loop w CANDIDATES)) as [e | [p |]] eqn:L.
  - now exists e.
  - destruct (loop_returns w CANDIDATES p L) as (c & I & R & P).
    specialize (N c I). unfold qualifies, on_candidate in N.
    rewrite R in N. congruence.
  - now exists (RuntimeError NO_PYTHON_MESSAGE).
Qed.

(** C4.  The invariant fails at [world_relative].  Resolution returns the
    bare name [python3], whose probe, started from the caller's directory,
    exited with 0; [main] then runs the generator under that name from the
    directory of the script, where the name starts an interpreter that
    fails the probe. *)
Theorem generator_under_unprobed_interpreter :
  below_minimum (version_info world_relative) /\
  main world_relative =
    ([EWhich "python3.12"; EWhich "python3.11"; EWhich "python3.10";
      EWhich "python3";
      ESpawn ["python3"; "-c"; PROBE] None;
      ESpawn ["python3"; "/repo/codex-rs/mcp-types/generate_mcp_types.py";
              "--check"]
             (Some "/repo/codex-rs/mcp-types")],
     inr 1) /\
  spawn world_relative (probe_cmd "python3") None = Exited 0 /\
  passes_probe_from_crate_dir world_relative "python3" = false.
Proof.
  split; [unfold below_minimum; simpl; lia |].
  repeat split; reflexivity.
Qed.

Lemma str_is_absolute (p : Pathlib.Path) :
  Pathlib.is_absolute (Pathlib.str p) = true.
Proof.
  unfold Pathlib.is_absolute, Pathlib.str. simpl.
  now destruct (String.concat "/" p).
Qed.

(** C8.  When resolution returns [python_exe], [main] adds to the trace of
    resolution exactly one spawn: the command line [python_exe], the
    absolute path of [generate_mcp_types.py] in the directory of the script's
    own file, [--check], run in that directory; it is the only run of the
    generator, and the caller's current directory changes nothing. *)
Theorem generator_command_line (w : World) (t : Trace) (python_exe : string) :
  python_for_generator w = (t, inr python_exe) ->
  trace (main w) =
    t ++ [ESpawn
            [python_exe;
             Pathlib.str (Pathlib.joinpath (Pathlib.parent (file_location w))
                                           "generate_mcp_types.py");
             "--check"]
            (Some (Pathlib.str (Pathlib.parent (file_location w))))] /\
  count is_generator_run (trace (main w)) = 1%nat /\
  Pathlib.is_absolute (Pathlib.str (generator w)) = true /\
  (forall dir, main (with_getcwd w dir) = main w).
Proof.
  intros R. split; [| split; [| split]].
  - now rewrite (main_resolved w t python_exe R).
  - pose proof (resolver_no_generator w) as Z0. rewrite R in Z0.
    unfold trace in Z0; cbn [fst] in Z0.
    rewrite (main_resolved w t python_exe R). unfold trace; cbn [fst].
    rewrite count_app, Z0. reflexivity.
  - apply str_is_absolute.
  - intros dir. now apply main_ignores.
Qed.

Lemma generator_command_line_witness :
  trace (main (world_311 0)) =
    [EWhich "python3.12"; EWhich "python3.11";
     ESpawn (probe_cmd "/usr/bin/python3.11") None] ++
    [ESpawn
       ["/usr/bin/python3.11";
        Pathlib.str (Pathlib.joinpath
                       (Pathlib.parent (file_location (world_311 0)))
                       "generate_mcp_types.py");
        "--check"]
       (Some (Pathlib.str (Pathlib.parent (file_location (world_311 0)))))] /\
  count is_generator_run (trace (main (world_311 0))) = 1%nat /\
  Pathlib.is_absolute (Pathlib.str (generator (world_311 0))) = true /\
  (forall dir, main (with_getcwd (world_311 0) dir) = main (world_311 0)).
Proof.
  apply (generator_command_line (world_311 0)). reflexivity.
Defined.

(** The command line and the directory of that run, spelt out. *)
Example generator_command_line_311 :
  generator_run (world_311 0) "/usr/bin/python3.11" =
  ESpawn ["/usr/bin/python3.11";
          "/repo/codex-rs/mcp-types/generate_mcp_types.py"; "--check"]
         (Some "/repo/codex-rs/mcp-types").
Proof. reflexivity. Qed.

Lemma split_distinct {A} (pre post : list A) (c x : A) :
  NoDup (pre ++ c :: post) -> In x (pre ++ [c]) -> In x post -> False.
Proof.
  induction pre as [| a pre IH]; simpl; intros N I P.
  - apply NoDup_cons_iff in N as [N _]. destruct I as [<- | []]. contradiction.
  - apply NoDup_cons_iff in N as [Na N]. destruct I as [<- | I].
    + apply Na. apply in_or_app. right. now right.
    + now apply IH.
Qed.

(** The spawns of [main], by kind. *)
Lemma main_counts (w : World) :
  count is_probe (trace (main w)) =
    count is_spawn (trace (python_for_generator w)) /\
  (count is_generator_run (trace (main w)) <= 1)%nat /\
  count is_spawn (trace (main w)) =
    (count is_probe (trace (main w)) +
     count is_generator_run (trace (main w)))%nat /\
  (count is_spawn (trace (python_for_generator w)) <= 4)%nat.
Proof.
  pose proof (resolver_spawns w) as S4.
  pose proof (resolver_no_generator w) as G0.
  pose proof (resolver_spawns_probes w) as SP.
  rewrite main_trace, !count_app, G0, SP.
  destruct (result (python_for_generator w)) as [e | p].
  - change (count is_probe []) with 0%nat.
    change (count is_generator_run []) with 0%nat.
    change (count is_spawn []) with 0%nat. lia.
  - change (count is_probe [generator_run w p]) with 0%nat.
    change (count is_spawn [generator_run w p]) with 1%nat.
    replace (count is_generator_run [generator_run w p]) with 1%nat
      by reflexivity.
    lia.
Qed.

(** Probing stops at a candidate that qualifies. *)
Lemma probing_stops (w : World) (pre post : list string) (c : string) :
  CANDIDATES = pre ++ c :: post -> qualifies w c = true ->
  (count is_probe (trace (main w)) <= List.length pre + 1)%nat /\
  forall c', In c' post -> ~ In (EWhich c') (trace (main w)).
Proof.
  intros Split Q. destruct (main_counts w) as (MP & _).
  destruct (version_ok w) eqn:V.
  - rewrite MP, main_trace, resolver_sufficient by assumption.
    split; [apply Nat.le_0_l |].
    intros c' _ [H | []]. discriminate.
  - destruct (loop_stops w pre post c Q) as (reached & I & L & T).
    rewrite <- Split in T.
    assert (TR : trace (python_for_generator w) =
                 flat_map (turn_events w) reached).
    { now rewrite resolver_insufficient. }
    split.
    + rewrite MP, TR. pose proof (flat_map_spawns w reached). lia.
    + intros c' P. rewrite main_trace, in_app_iff, TR. intros [H | H].
      * apply flat_map_which in H. apply I in H.
        apply (split_distinct pre post c c'); auto.
        rewrite <- Split. apply candidates_distinct.
      * destruct (result (python_for_generator w));
          [contradiction | destruct H as [H | []]; discriminate].
Qed.

(** C9, as stated, fails: when all four candidate names resolve and only
    the last one qualifies, four probes and the generator are spawned, five
    processes in all. *)
Lemma five_processes_spawned :
  count is_probe (trace (main world_last)) = 4%nat /\
  count is_generator_run (trace (main world_last)) = 1%nat /\
  count is_spawn (trace (main world_last)) = 5%nat /\
  (2 < count is_spawn (trace (main world_last)))%nat.
Proof. repeat split; vm_compute; lia. Qed.

(** C9, amended.  [main] spawns at most five processes: at most four probes
    (one per candidate) and at most one generator, and nothing else.
    Probing stops at a qualifying candidate: with [n] candidates listed
    before it there are at most [n + 1] probes, and the candidates listed
    after it are not even looked up. *)
Theorem at_most_five_processes (w : World) :
  (count is_probe (trace (main w)) <= 4)%nat /\
  (count is_generator_run (trace (main w)) <= 1)%nat /\
  count is_spawn (trace (main w)) =
    (count is_probe (trace (main w)) +
     count is_generator_run (trace (main w)))%nat /\
  (count is_spawn (trace (main w)) <= 5)%nat /\
  (forall pre c post,
     CANDIDATES = pre ++ c :: post -> qualifies w c = true ->
     (count is_probe (trace (main w)) <= List.length pre + 1)%nat /\
     forall c', In c' post -> ~ In (EWhich c') (trace (main w))).
Proof.
  destruct (main_counts w) as (P & G & S & B).
  split; [lia | split; [lia | split; [lia | split; [lia |]]]].
  intros pre c post Split Q. exact (probing_stops w pre post c Split Q).
Qed.

Lemma at_most_five_processes_witness :
  (count is_probe (trace (main world_several)) <= 2)%nat /\
  forall c', In c' ["python3.10"; "python3"] ->
             ~ In (EWhich c') (trace (main world_several)).
Proof.
  exact (proj2 (proj2 (proj2 (proj2 (at_most_five_processes world_several))))
           ["python3.12"] "python3.11" ["python3.10"; "python3"]
           eq_refl eq_refl).
Defined.

(** C10.  [main] never asks whether the generator script exists.  When
    resolution returns [python_exe] and the script is missing, the run of
    the generator is spawned all the same, and the return code of the child
    is what [main] returns and the script exits with; and over any other
    file system [main] behaves the same. *)
Theorem missing_script_not_checked (w : World) (t : Trace)
    (python_exe : string) (code : Z) :
  python_for_generator w = (t, inr python_exe) ->
  is_file w (Pathlib.str (generator w)) = false ->
  spawn w (generator_cmd w python_exe) (Some (Pathlib.str (crate_dir w)))
    = Exited code ->
  main w = (t ++ [generator_run w python_exe], inr code) /\
  script w = code mod 256 /\
  (forall files, main (with_is_file w files) = main w).
Proof.
  intros R _ S. split; [| split].
  - now rewrite (main_resolved w t python_exe R), S.
  - unfold script. now rewrite (main_resolved w t python_exe R), S.
  - intros files. now apply main_ignores.
Qed.

Lemma missing_script_not_checked_witness :
  main world_no_script =
    ([EWhich "python3.12"; EWhich "python3.11";
      ESpawn (probe_cmd "/usr/bin/python3.11") None] ++
     [generator_run world_no_script "/usr/bin/python3.11"], inr 2) /\
  script world_no_script = 2 mod 256 /\
  (forall files, main (with_is_file world_no_script files) =
                 main world_no_script).
Proof.
  apply (missing_script_not_checked world_no_script); reflexivity.
Defined.

(* ------------------------------------------------------------------ *)
(** ** Further properties of the script *)

(** X1.  The version gate compares major and minor only: it passes exactly
    when major > 3, or major = 3 and minor >= 10, so two interpreters with
    the same major and minor are treated alike whatever their micro,
    release level and serial are. *)
Theorem version_gate_components (w : World) :
  (version_ok w = true <-> meets_minimum (version_info w)) /\
  (version_ok w = false <-> below_minimum (version_info w)) /\
  (forall w',
     major (version_info w') = major (version_info w) ->
     minor (version_info w') = minor (version_info w) ->
     version_ok w' = version_ok w).
Proof.
  split; [apply version_ok_true | split; [apply version_ok_false |]].
  intros w' Hmaj Hmin.
  destruct (version_ok w) eqn:V.
  - apply version_ok_true in V. apply version_ok_true.
    unfold meets_minimum in *. rewrite Hmaj, Hmin. exact V.
  - apply version_ok_false in V. apply version_ok_false.
    unfold below_minimum in *. rewrite Hmaj, Hmin. exact V.
Qed.

(** How the loop ends is settled by the first candidate that is not passed
    over. *)
Lemma loop_first_decisive (w : World) (candidates : list string) :
  match find (fun c => negb (passed_over w c)) candidates with
  | None => result (candidates_loop w candidates) = inr None
  | Some c =>
      (qualifies w c = true /\
       exists path,
         resolves_elsewhere w c = Some path /\
         result (candidates_loop w candidates) = inr (Some path)) \/
      (unspawnable w c = true /\
       exists msg,
         result (candidates_loop w candidates) = inl (OSError msg))
  end.
Proof.
  induction candidates as [| c cs IH]; [reflexivity |].
  cbn [find]. destruct (passed_over w c) eqn:P; cbn [negb].
  - rewrite (loop_pass w c cs P), result_after. exact IH.
  - unfold passed_over in P. apply andb_false_iff in P.
    destruct (qualifies w c) eqn:Q.
    + left. split; [reflexivity |].
      destruct (loop_qualifies w c cs Q) as (p & R & E).
      exists p. now rewrite E.
    + destruct (unspawnable w c) eqn:U.
      * right. split; [reflexivity |].
        destruct (loop_unspawnable w c cs U) as (msg & E).
        exists msg. now rewrite E.
      * destruct P; discriminate.
Qed.

(** X2.  With the running interpreter below 3.10, resolution has exactly
    three outcomes, chosen by the first candidate in list order that is not
    passed over: none, and [RuntimeError] is raised; one that qualifies, and
    its path is returned; one whose probe cannot be started, and [OSError]
    is raised. *)
Theorem resolution_outcomes (w : World) :
  below_minimum (version_info w) ->
  match find (fun c => negb (passed_over w c)) CANDIDATES with
  | None =>
      result (python_for_generator w) = inl (RuntimeError NO_PYTHON_MESSAGE)
  | Some c =>
      (qualifies w c = true /\
       exists path,
         resolves_elsewhere w c = Some path /\
         result (python_for_generator w) = inr path) \/
      (unspawnable w c = true /\
       exists msg, result (python_for_generator w) = inl (OSError msg))
  end.
Proof.
  intros V. apply version_ok_false in V.
  assert (Res : result (python_for_generator w) =
                match result (candidates_loop w CANDIDATES) with
                | inl e => inl e
                | inr (Some path) => inr path
                | inr None => inl (RuntimeError NO_PYTHON_MESSAGE)
                end).
  { now rewrite (resolver_insufficient w V). }
  pose proof (loop_first_decisive w CANDIDATES) as D.
  destruct (find (fun c => negb (passed_over w c)) CANDIDATES) as [c |].
  - destruct D as [(Q & p & R & E) | (U & msg & E)].
    + left. split; [assumption |]. exists p.
      split; [assumption |]. now rewrite Res, E.
    + right. split; [assumption |]. exists msg. now rewrite Res, E.
  - now rewrite Res, D.
Qed.

Lemma resolution_outcomes_witness :
  (qualifies world_shim "python3.10" = true /\
   exists path,
     resolves_elsewhere world_shim "python3.10" = Some path /\
     result (python_for_generator world_shim) = inr path) \/
  (unspawnable world_shim "python3.10" = true /\
   exists msg,
     result (python_for_generator world_shim) = inl (OSError msg)).
Proof.
  apply (resolution_outcomes world_shim).
  unfold below_minimum; simpl. lia.
Defined.

Lemma passes_probe_exit (w : World) (path : string) :
  passes_probe w path = true -> spawn w (probe_cmd path) None = Exited 0.
Proof.
  unfold passes_probe.
  destruct (spawn w (probe_cmd path) None) as [[| |] |];
    now try discriminate.
Qed.

(** X3.  A path returned by resolution is either [sys.executable], with the
    running interpreter at 3.10 or newer, or else a non-empty path that
    [shutil.which] gave for one of the four candidate names, that differs
    from [sys.executable], and whose probe exited with status 0. *)
Theorem returned_path_provenance (w : World) (path : string) :
  result (python_for_generator w) = inr path ->
  (meets_minimum (version_info w) /\ path = executable w) \/
  (below_minimum (version_info w) /\
   exists c,
     In c CANDIDATES /\ which w c = Some path /\
     path <> "" /\ path <> executable w /\
     spawn w (probe_cmd path) None = Exited 0).
Proof.
  destruct (version_ok w) eqn:V.
  - rewrite resolver_sufficient by assumption. intros H.
    left. split; [now apply version_ok_true | now inversion H].
  - rewrite resolver_insufficient by assumption. unfold result at 1.
    cbn [snd].
    destruct (result (candidates_loop w CANDIDATES)) as [e | [p |]] eqn:L;
      try discriminate.
    intros H. inversion H; subst p.
    destruct (loop_returns w CANDIDATES path L) as (c & I & R & P).
    right. split; [now apply version_ok_false |].
    exists c. destruct (resolved_which w c path R) as [W _].
    destruct (resolved_differs w c path R) as [D E].
    repeat split; auto. now apply passes_probe_exit.
Qed.

Lemma returned_path_provenance_witness :
  (meets_minimum (version_info world_shim) /\
   "/usr/bin/python3.10" = executable world_shim) \/
  (below_minimum (version_info world_shim) /\
   exists c,
     In c CANDIDATES /\ which world_shim c = Some "/usr/bin/python3.10" /\
     "/usr/bin/python3.10" <> "" /\
     "/usr/bin/python3.10" <> executable world_shim /\
     spawn world_shim (probe_cmd "/usr/bin/python3.10") None = Exited 0).
Proof.
  apply (returned_path_provenance world_shim "/usr/bin/python3.10").
  reflexivity.
Defined.

(** X4.  Resolution does nothing but look up candidate names and run
    version probes: each of its events is the lookup of one of the four
    names, or the spawn of [[path; "-c"; PROBE]] in the caller's own working
    directory, for a non-empty [path] that [shutil.which] gave for one of
    the names and that differs from [sys.executable]. *)
Theorem resolution_events_shape (w : World) (e : Event) :
  In e (trace (python_for_generator w)) ->
  exists c,
    In c CANDIDATES /\
    (e = EWhich c \/
     exists path,
       e = ESpawn [path; "-c"; PROBE] None /\
       which w c = Some path /\ path <> "" /\ path <> executable w).
Proof.
  intros I. destruct (resolver_events w e I) as (c & Ic & T).
  exists c. split; [assumption |].
  destruct (turn_event_kinds w c e T) as [-> | (p & R & ->)];
    [now left | right].
  exists p. destruct (resolved_which w c p R) as [W _].
  destruct (resolved_differs w c p R) as [D E].
  repeat split; auto.
Qed.

Lemma resolution_events_shape_witness :
  exists c,
    In c CANDIDATES /\
    (ESpawn (probe_cmd "/opt/shims/python3.11") None = EWhich c \/
     exists path,
       ESpawn (probe_cmd "/opt/shims/python3.11") None =
         ESpawn [path; "-c"; PROBE] None /\
       which world_shim c = Some path /\ path <> "" /\
       path <> executable world_shim).
Proof.
  apply (resolution_events_shape world_shim).
  simpl. tauto.
Defined.

(** The candidates the loop reaches form an initial segment of the list;
    all of them but the last are passed over, and the loop stops short of
    the end of the list only at one that is not. *)
Lemma loop_reaches (w : World) (candidates : list string) :
  exists reached rest,
    candidates = reached ++ rest /\
    trace (candidates_loop w candidates) =
      flat_map (turn_events w) reached /\
    forallb (passed_over w) (removelast reached) = true /\
    (forallb (passed_over w) reached = true -> rest = []).
Proof.
  induction candidates as [| c cs IH].
  - exists [], []. repeat split; reflexivity.
  - assert (Stop : forall r : Exception + option string,
      passed_over w c = false ->
      candidates_loop w (c :: cs) = (turn_events w c, r) ->
      exists reached rest,
        c :: cs = reached ++ rest /\
        trace (candidates_loop w (c :: cs)) =
          flat_map (turn_events w) reached /\
        forallb (passed_over w) (removelast reached) = true /\
        (forallb (passed_over w) reached = true -> rest = [])).
    { intros r P E. exists [c], cs. rewrite E.
      split; [reflexivity |]. split; [simpl; now rewrite app_nil_r |].
      split; [reflexivity |].
      cbn [forallb]. rewrite P. discriminate. }
    destruct (qualifies w c) eqn:Q.
    { destruct (loop_qualifies w c cs Q) as (p & _ & E).
      apply Stop with (inr (Some p)); [| assumption].
      unfold passed_over. now rewrite Q. }
    destruct (unspawnable w c) eqn:U.
    { destruct (loop_unspawnable w c cs U) as (msg & E).
      apply Stop with (inl (OSError msg)); [| assumption].
      unfold passed_over. now rewrite U, andb_false_r. }
    assert (P : passed_over w c = true).
    { unfold passed_over. now rewrite Q, U. }
    destruct IH as (reached & rest & Split & T & Init & End).
    exists (c :: reached), rest.
    rewrite (loop_pass w c cs P), trace_after, T.
    split; [now rewrite Split |]. split; [reflexivity |]. split.
    + destruct reached as [| r reached']; [reflexivity |].
      change (removelast (c :: r :: reached'))
        with (c :: removelast (r :: reached')).
      cbn [forallb]. now rewrite P, Init.
    + cbn [forallb]. rewrite P. exact End.
Qed.

(** X5.  Resolution examines the candidates in list order, each at most
    once, the probe of a candidate right after its lookup: its trace is that
    of an initial segment of the candidate list, in which every candidate
    but the last was passed over; and whenever a candidate is left
    unexamined, the last one examined was not passed over. *)
Theorem candidates_examined_in_order (w : World) :
  exists reached rest,
    CANDIDATES = reached ++ rest /\
    trace (python_for_generator w) = flat_map (turn_events w) reached /\
    forallb (passed_over w) (removelast reached) = true /\
    (below_minimum (version_info w) ->
     forallb (passed_over w) reached = true -> rest = []).
Proof.
  destruct (version_ok w) eqn:V.
  - exists [], CANDIDATES. rewrite resolver_sufficient by assumption.
    repeat split; try reflexivity.
    intros B. apply version_ok_false in B. congruence.
  - destruct (loop_reaches w CANDIDATES) as (reached & rest & S & T & I & E).
    exists reached, rest. rewrite resolver_insufficient by assumption.
    repeat split; auto.
Qed.

Lemma candidates_examined_in_order_witness :
  exists reached rest,
    CANDIDATES = reached ++ rest /\
    trace (python_for_generator world_shim) =
      flat_map (turn_events world_shim) reached /\
    forallb (passed_over world_shim) (removelast reached) = true /\
    (below_minimum (version_info world_shim) ->
     forallb (passed_over world_shim) reached = true -> rest = []).
Proof. exact (candidates_examined_in_order world_shim). Defined.

Lemma turn_spawn_count (w : World) (c : string) :
  count is_spawn (turn_events w c) = if resolvable w c then 1%nat else 0%nat.
Proof.
  unfold turn_events, resolvable, count.
  now destruct (resolves_elsewhere w c).
Qed.

Lemma loop_spawns_resolvable (w : World) (candidates : list string) :
  (count is_spawn (trace (candidates_loop w candidates))
   <= List.length (filter (resolvable w) candidates))%nat.
Proof.
  induction candidates as [| c cs IH]; [apply Nat.le_refl |].
  pose proof (turn_spawn_count w c) as T.
  cbn [filter].
  destruct (qualifies w c) eqn:Q.
  { destruct (loop_qualifies w c cs Q) as (p & _ & E).
    rewrite E. unfold trace. cbn [fst]. rewrite T.
    destruct (resolvable w c); cbn [List.length]; lia. }
  destruct (unspawnable w c) eqn:U.
  { destruct (loop_unspawnable w c cs U) as (msg & E).
    rewrite E. unfold trace. cbn [fst]. rewrite T.
    destruct (resolvable w c); cbn [List.length]; lia. }
  rewrite loop_pass by (unfold passed_over; now rewrite Q, U).
  rewrite trace_after, count_app, T.
  destruct (resolvable w c); cbn [List.length]; lia.
Qed.

Lemma unresolvable_candidate (w : World) (c : string) :
  which w c = None \/ which w c = Some "" \/
  which w c = Some (executable w) ->
  resolvable w c = false.
Proof.
  unfold resolvable, resolves_elsewhere.
  intros [-> | [-> | ->]]; [reflexivity | reflexivity |].
  now rewrite String.eqb_refl, orb_true_r.
Qed.

Lemma filter_none {A} (f : A -> bool) (l : list A) :
  (forall x, In x l -> f x = false) -> filter f l = [].
Proof.
  induction l as [| a l IH]; intros H; [reflexivity |].
  cbn [filter]. rewrite (H a) by now left.
  apply IH. intros x I. apply H. now right.
Qed.

(** X6.  Resolution spawns no more probes than there are candidate names
    that resolve to a non-empty path other than [sys.executable].  In
    particular, when every candidate name is unresolved, resolves to an
    empty path or resolves to the running interpreter, resolution spawns no
    process at all. *)
Theorem probes_bounded_by_resolvable (w : World) :
  (count is_spawn (trace (python_for_generator w))
   <= List.length (filter (resolvable w) CANDIDATES))%nat /\
  ((forall c, In c CANDIDATES ->
      which w c = None \/ which w c = Some "" \/
      which w c = Some (executable w)) ->
   count is_spawn (trace (python_for_generator w)) = 0%nat).
Proof.
  assert (Bound :
    (count is_spawn (trace (python_for_generator w))
     <= List.length (filter (resolvable w) CANDIDATES))%nat).
  { destruct (version_ok w) eqn:V.
    - rewrite resolver_sufficient by assumption. apply Nat.le_0_l.
    - rewrite resolver_insufficient by assumption.
      apply loop_spawns_resolvable. }
  split; [exact Bound |].
  intros H. rewrite (filter_none (resolvable w) CANDIDATES) in Bound.
  - cbn [List.length] in Bound. lia.
  - intros c I. apply unresolvable_candidate. now apply H.
Qed.

Lemma probes_bounded_by_resolvable_witness :
  (count is_spawn (trace (python_for_generator world_old)) <= 1)%nat /\
  count is_spawn (trace (python_for_generator world_self)) = 0%nat.
Proof.
  split.
  - exact (proj1 (probes_bounded_by_resolvable world_old)).
  - apply (proj2 (probes_bounded_by_resolvable world_self)).
    intros c I. simpl in I.
    destruct I as [<- | [<- | [<- | [<- | []]]]]; simpl; tauto.
Defined.

(** X7.  With the running interpreter at 3.10 or newer, the whole of [main]
    is one process: the generator under [sys.executable], with no lookup
    and no probe before it; its return code, or the [OSError] of a failed
    spawn, is the result. *)
Theorem fast_path_single_process (w : World) :
  meets_minimum (version_info w) ->
  main w =
    ([generator_run w (executable w)],
     match spawn w (generator_cmd w (executable w))
                 (Some (Pathlib.str (crate_dir w))) with
     | Exited code => inr code
     | SpawnError msg => inl (OSError msg)
     end) /\
  count is_spawn (trace (main w)) = 1%nat.
Proof.
  intros V. apply version_ok_true in V.
  pose proof (main_resolved w [] (executable w) (resolver_sufficient w V))
    as E.
  split; [exact E |]. now rewrite E.
Qed.

Lemma fast_path_single_process_witness :
  main world_current =
    ([generator_run world_current (executable world_current)],
     match spawn world_current
                 (generator_cmd world_current (executable world_current))
                 (Some (Pathlib.str (crate_dir world_current))) with
     | Exited code => inr code
     | SpawnError msg => inl (OSError msg)
     end) /\
  count is_spawn (trace (main world_current)) = 1%nat.
Proof.
  apply (fast_path_single_process world_current).
  unfold meets_minimum; simpl. lia.
Defined.

(** X8.  When the resolved interpreter cannot be started for the generator
    run, [main] does not recover: the attempt is the last event, the
    [OSError] is the result of [main], and the script exits with the status
    of an uncaught exception. *)
Theorem generator_spawn_failure (w : World) (t : Trace)
    (python_exe msg : string) :
  python_for_generator w = (t, inr python_exe) ->
  spawn w (generator_cmd w python_exe) (Some (Pathlib.str (crate_dir w)))
    = SpawnError msg ->
  main w = (t ++ [generator_run w python_exe], inl (OSError msg)) /\
  script w = 1.
Proof.
  intros R S. unfold script.
  rewrite (main_resolved w t python_exe R), S. split; reflexivity.
Qed.

Lemma generator_spawn_failure_witness :
  main world_no_executable =
    ([] ++ [generator_run world_no_executable ""],
     inl (OSError "No such file or directory")) /\
  script world_no_executable = 1.
Proof.
  apply (generator_spawn_failure world_no_executable); reflexivity.
Defined.

(** X9.  The exit status of the script lies in [0,255], and it is 0 exactly
    when resolution returned an interpreter, the generator ran under it, and
    its return code is a multiple of 256 (0, for the return codes of a
    process). *)
Theorem exit_status_zero (w : World) :
  0 <= script w <= 255 /\
  (script w = 0 <->
   exists t python_exe code,
     python_for_generator w = (t, inr python_exe) /\
     spawn w (generator_cmd w python_exe)
           (Some (Pathlib.str (crate_dir w))) = Exited code /\
     code mod 256 = 0).
Proof.
  unfold script.
  destruct (python_for_generator w) as [t [e | p]] eqn:R.
  - rewrite (main_unresolved w t e R). unfold result, exit_status; simpl.
    split; [lia |]. split; [discriminate |].
    intros (t' & p' & code & E & _). discriminate.
  - rewrite (main_resolved w t p R). unfold result, exit_status; cbn [snd].
    destruct (spawn w (generator_cmd w p) (Some (Pathlib.str (crate_dir w))))
      as [code | msg] eqn:S.
    + split; [pose proof (Z.mod_pos_bound code 256); lia |]. split.
      * intros Z0. exists t, p, code. auto.
      * intros (t' & p' & code' & E & S' & Z0).
        inversion E; subst t' p'. rewrite S in S'.
        inversion S'; subst code'. exact Z0.
    + split; [lia |]. split; [discriminate |].
      intros (t' & p' & code' & E & S' & _).
      inversion E; subst t' p'. rewrite S in S'. discriminate.
Qed.

(** X10.  The generator script is taken from the directory of the script's
    own file, and the child runs in that directory: the file of the script
    and [generate_mcp_types.py] have the same parent, which is the working
    directory of the generator run. *)
Theorem generator_beside_tool (w : World) (python_exe : string) :
  file_location w <> [] ->
  (exists name, file_location w = Pathlib.joinpath (crate_dir w) name) /\
  Pathlib.parent (generator w) = Pathlib.parent (file_location w) /\
  generator_run w python_exe =
    ESpawn [python_exe; Pathlib.str (generator w); "--check"]
           (Some (Pathlib.str (Pathlib.parent (generator w)))).
Proof.
  intros N.
  assert (P : Pathlib.parent (generator w) = crate_dir w).
  { unfold generator, Pathlib.parent, Pathlib.joinpath.
    apply removelast_last. }
  split; [| split].
  - exists (last (file_location w) "").
    unfold crate_dir, Pathlib.joinpath, Pathlib.parent.
    now apply app_removelast_last.
  - exact P.
  - unfold generator_run, generator_cmd. now rewrite P.
Qed.

Lemma generator_beside_tool_witness :
  (exists name,
     file_location world_current =
     Pathlib.joinpath (crate_dir world_current) name) /\
  Pathlib.parent (generator world_current) =
    Pathlib.parent (file_location world_current) /\
  generator_run world_current "/usr/bin/python3.11" =
    ESpawn ["/usr/bin/python3.11";
            Pathlib.str (generator world_current); "--check"]
           (Some (Pathlib.str (Pathlib.parent (generator world_current)))).
Proof.
  apply (generator_beside_tool world_current "/usr/bin/python3.11").
  discriminate.
Defined.

(** X11.  Every run of the generator in the trace of [main] is under a path
    that resolution has cleared: [sys.executable] after the version gate
    passed, or a path whose probe, started from the caller's working
    directory, exited with 0.  When that probe has the same outcome from
    the directory of the script, what the generator is started under passes
    it as well.  And when the running interpreter is below the minimum and
    no candidate qualifies, [main] ends in an exception, the trace holds no
    run of the generator, and the script exits with the status of an
    uncaught exception. *)
Theorem generator_run_cleared (w : World) :
  (forall e, In e (trace (main w)) -> is_generator_run e = true ->
     exists python_exe,
       e = generator_run w python_exe /\
       cleared_by_resolution w python_exe) /\
  (forall python_exe,
     below_minimum (version_info w) ->
     result (python_for_generator w) = inr python_exe ->
     spawn w (probe_cmd python_exe) (Some (Pathlib.str (crate_dir w))) =
       spawn w (probe_cmd python_exe) None ->
     passes_probe_from_crate_dir w python_exe = true) /\
  (below_minimum (version_info w) ->
   (forall c, In c CANDIDATES -> qualifies w c = false) ->
   (exists e, result (main w) = inl e) /\
   count is_generator_run (trace (main w)) = 0%nat /\
   script w = 1).
Proof.
  split; [| split].
  - intros e. rewrite main_trace, in_app_iff. intros [I | I] G.
    + rewrite (resolver_event_kind w e I) in G. discriminate.
    + destruct (result (python_for_generator w)) as [x | p] eqn:R;
        [contradiction |].
      destruct I as [<- | []]. exists p. split; [reflexivity |].
      now apply resolver_returns.
  - intros p B R Same. unfold passes_probe_from_crate_dir.
    destruct (resolver_returns w p R) as [[M _] | P].
    + unfold meets_minimum in M. unfold below_minimum in B. lia.
    + now rewrite Same, P.
  - intros V N. apply version_ok_false in V.
    destruct (resolver_fails w V N) as (e & R).
    destruct (python_for_generator w) as [t r] eqn:P.
    unfold result in R; simpl in R; subst r.
    pose proof (resolver_no_generator w) as Z0. rewrite P in Z0.
    unfold script. rewrite (main_unresolved w t e P).
    split; [now exists e | split; [exact Z0 | reflexivity]].
Qed.

Lemma generator_run_cleared_witness :
  (forall e, In e (trace (main (world_311 0))) -> is_generator_run e = true ->
     exists python_exe,
       e = generator_run (world_311 0) python_exe /\
       cleared_by_resolution (world_311 0) python_exe) /\
  passes_probe_from_crate_dir (world_311 0) "/usr/bin/python3.11" = true /\
  (exists e, result (main world_bare) = inl e) /\
  count is_generator_run (trace (main world_bare)) = 0%nat /\
  script world_bare = 1.
Proof.
  split; [| split].
  - apply (proj1 (generator_run_cleared (world_311 0))).
  - apply (proj1 (proj2 (generator_run_cleared (world_311 0)))).
    + unfold below_minimum; simpl. lia.
    + reflexivity.
    + reflexivity.
  - apply (proj2 (proj2 (generator_run_cleared world_bare))).
    + unfold below_minimum; simpl. lia.
    + intros c _. reflexivity.
Defined.
